(** * vue-route-query-hook: the [useRouteQuery] composable

    A shallow embedding of [src/index.ts].  The hook closes over a table of
    reactive references ([params]) and an options record, and exposes three
    operations on them: [initParamsFromRoute] (query -> references),
    [updateRouteQuery] (references -> query handed to [router.replace]) and
    [resetParams].

    Layout:
    - [JS]: the fragment of ECMAScript the hook relies on: the primitive
      values of [QueryValue], [typeof], [String(v)], [Number(v)], [isNaN].
      Numbers are IEEE 754 binary64 values ([spec_float] with precision 53
      and maximal exponent 1024), so [Number] rounds a decimal literal to
      the nearest double and [String] prints the shortest decimal that reads
      back as the same double.  Strings are sequences of code units below
      256.
    - the query object of the router and the closure of [useRouteQuery].
      A reference is a location of a store, so two keys of [params] may
      share one reference; [params] is the list of its properties in
      [for ... in] order.  Objects are taken with their own properties
      only: no key is the name of a property inherited from
      [Object.prototype].
    - properties of the three operations.

    The watcher that calls [updateRouteQuery] on a change and the
    [onMounted] / [onUnmounted] registrations belong to the Vue runtime and
    are left out. *)

From Stdlib Require Import ZArith Ascii Floats.SpecFloat.
From stdpp Require Import base strings list functions gmap.

(** ** ECMAScript primitives *)

Module JS.

Local Open Scope Z_scope.

(** The Number type.  Every number produced by the model is in canonical
    form ([valid_binary]); [NaN] is the single [S754_nan]. *)
Definition number : Type := spec_float.

Definition prec : Z := 53.
Definition emax : Z := 1024.

Definition NaN : number := S754_nan.
Definition Infinity (neg : bool) : number := S754_infinity neg.

(** The Number value for an integer: round to nearest, ties to even. *)
Definition of_Z (z : Z) : number := binary_normalize prec emax z 0 false.

(** The Number value for the positive rational [n / d]: the quotient is
    taken with enough bits for the rounding position, the remainder gives
    the rounding direction. *)
Definition of_ratio (neg : bool) (n d : positive) : number :=
  let '(q, e, l) := SFdiv_core_binary prec emax (Zpos n) 0 (Zpos d) 0 in
  binary_round_aux prec emax neg q e l.

(** The Number value for [m * 10 ^ e] with [m] positive. *)
Definition of_decimal (neg : bool) (m : positive) (e : Z) : number :=
  match e with
  | Zneg p => of_ratio neg m (Pos.pow 10 p)
  | _ => binary_round prec emax neg (m * Z.to_pos (10 ^ e))%positive 0
  end.

(** *** StringToNumber (ECMA-262, 7.1.4.1.1) *)

Definition is_white_space (c : ascii) : bool :=
  let n := N_of_ascii c in
  ((9 <=? n) && (n <=? 13) || (n =? 32) || (n =? 160))%N.

Fixpoint drop_white_space (s : list ascii) : list ascii :=
  match s with
  | c :: s' => if is_white_space c then drop_white_space s' else s
  | [] => []
  end.

Definition trim (s : list ascii) : list ascii :=
  reverse (drop_white_space (reverse (drop_white_space s))).

(** Value of a digit in the given radix. *)
Definition digit_value (radix : Z) (c : ascii) : option Z :=
  let n := Z.of_N (N_of_ascii c) in
  let v :=
    if (48 <=? n) && (n <=? 57) then Some (n - 48)
    else if (97 <=? n) && (n <=? 102) then Some (n - 87)
    else if (65 <=? n) && (n <=? 70) then Some (n - 55)
    else None in
  match v with
  | Some d => if d <? radix then Some d else None
  | None => None
  end.

(** Longest prefix of digits: accumulated value, number of digits read,
    remaining input. *)
Fixpoint read_digits (radix : Z) (s : list ascii) (acc : Z) (cnt : Z)
  : Z * Z * list ascii :=
  match s with
  | c :: s' =>
      match digit_value radix c with
      | Some d => read_digits radix s' (acc * radix + d) (cnt + 1)
      | None => (acc, cnt, s)
      end
  | [] => (acc, cnt, [])
  end.

Definition read_sign (s : list ascii) : bool * list ascii :=
  match s with
  | "+"%char :: s' => (false, s')
  | "-"%char :: s' => (true, s')
  | _ => (false, s)
  end.

(** ExponentPart_opt followed by the end of the input. *)
Definition read_exponent (s : list ascii) : option Z :=
  match s with
  | [] => Some 0
  | c :: s' =>
      if bool_decide (c = "e"%char) || bool_decide (c = "E"%char) then
        let '(neg, s'') := read_sign s' in
        let '(v, cnt, rest) := read_digits 10 s'' 0 0 in
        match rest with
        | [] => if 0 <? cnt then Some (if neg then - v else v) else None
        | _ => None
        end
      else None
  end.

(** StrUnsignedDecimalLiteral other than [Infinity]: mantissa and decimal
    exponent. *)
Definition read_unsigned_decimal (s : list ascii) : option (Z * Z) :=
  let '(m1, c1, rest1) := read_digits 10 s 0 0 in
  let '(m2, c2, rest2) :=
    match rest1 with
    | "."%char :: r => read_digits 10 r m1 0
    | _ => (m1, 0, rest1)
    end in
  if 0 <? c1 + c2 then
    match read_exponent rest2 with
    | Some e => Some (m2, e - c2)
    | None => None
    end
  else None.

Definition str_decimal_literal (s : list ascii) : number :=
  let '(neg, u) := read_sign s in
  if bool_decide (u = String.list_ascii_of_string "Infinity") then Infinity neg
  else
    match read_unsigned_decimal u with
    | Some (Zpos m, e) => of_decimal neg m e
    | Some (_, _) => S754_zero neg
    | None => NaN
    end.

(** NonDecimalIntegerLiteral: [0x], [0o], [0b] prefixes, unsigned. *)
Definition non_decimal_radix (s : list ascii) : option (Z * list ascii) :=
  match s with
  | "0"%char :: c :: r =>
      if bool_decide (c = "x"%char) || bool_decide (c = "X"%char) then Some (16, r)
      else if bool_decide (c = "o"%char) || bool_decide (c = "O"%char) then Some (8, r)
      else if bool_decide (c = "b"%char) || bool_decide (c = "B"%char) then Some (2, r)
      else None
  | _ => None
  end.

Definition StringToNumber (str : string) : number :=
  let s := trim (String.list_ascii_of_string str) in
  match s with
  | [] => S754_zero false
  | _ =>
      match non_decimal_radix s with
      | Some (radix, r) =>
          match read_digits radix r 0 0 with
          | (v, cnt, []) => if 0 <? cnt then of_Z v else NaN
          | _ => NaN
          end
      | None => str_decimal_literal s
      end
  end.

(** *** Number::toString (ECMA-262, 6.1.6.1.20), radix 10 *)

Definition digit_char (d : Z) : ascii := ascii_of_N (Z.to_N (48 + d)).

Fixpoint decimal_digits_go (fuel : nat) (z : Z) (acc : list ascii) : list ascii :=
  match fuel with
  | O => acc
  | S fuel' =>
      let acc' := digit_char (z mod 10) :: acc in
      if z <? 10 then acc' else decimal_digits_go fuel' (z / 10) acc'
  end.

(** Decimal representation of a non-negative integer, most significant
    digit first. *)
Definition decimal_digits (z : Z) : list ascii :=
  decimal_digits_go (S (Z.to_nat (Z.log2 z))) z [].

(** The exact value [m * 2 ^ e] as a fraction. *)
Definition fraction (m : positive) (e : Z) : Z * Z :=
  match e with
  | Zneg p => (Zpos m, 2 ^ Zpos p)
  | _ => (Zpos m * 2 ^ e, 1)
  end.

(** The fraction [x / 10 ^ p]. *)
Definition scale10 (x : Z * Z) (p : Z) : Z * Z :=
  match p with
  | Zneg q => (x.1 * 10 ^ Zpos q, x.2)
  | _ => (x.1, x.2 * 10 ^ p)
  end.

(** The least [n' >= n] with [x / 10 ^ n' < 1], where [x] is [v / 10 ^ n]. *)
Fixpoint magnitude10 (fuel : nat) (v : Z * Z) (n : Z) : Z :=
  match fuel with
  | O => n
  | S fuel' => if v.1 <? v.2 then n else magnitude10 fuel' (v.1, v.2 * 10) (n + 1)
  end.

Definition is_number (x y : number) : bool :=
  match x, y with
  | S754_finite s m e, S754_finite s' m' e' =>
      Bool.eqb s s' && (m =? m')%positive && (e =? e')
  | _, _ => false
  end.

(** The integers [s] with [k] digits and [n] such that [s * 10 ^ (n - k)]
    converts back to [x], for the least such [k]; among two candidates the
    one closest to [x], the even one on a tie. *)
Fixpoint shortest_digits (fuel : nat) (x : number) (v : Z * Z) (n k : Z) : Z * Z :=
  let '(a, b) := scale10 v (n - k) in
  let lo := a / b in
  let r := a mod b in
  let hi := lo + 1 in
  let lo_ok := (r =? 0) || is_number (of_decimal false (Z.to_pos lo) (n - k)) x in
  let hi_ok := negb (r =? 0) && is_number (of_decimal false (Z.to_pos hi) (n - k)) x in
  let pick_hi :=
    match 2 * r ?= b with
    | Lt => false
    | Gt => true
    | Eq => Z.odd lo
    end in
  let s :=
    if lo_ok && hi_ok then Some (if pick_hi then hi else lo)
    else if lo_ok then Some lo
    else if hi_ok then Some hi
    else None in
  match s, fuel with
  | Some s, _ => if s =? 10 ^ k then (10 ^ (k - 1), n + 1) else (s, n)
  | None, S fuel' => shortest_digits fuel' x v n (k + 1)
  | None, O => (lo, n)
  end.

Definition zeros (n : Z) : list ascii := replicate (Z.to_nat n) "0"%char.

Definition format_digits (ds : list ascii) (n : Z) : list ascii :=
  let k := Z.of_nat (length ds) in
  if (k <=? n) && (n <=? 21) then ds ++ zeros (n - k)
  else if (0 <? n) && (n <=? 21) then
    take (Z.to_nat n) ds ++ "."%char :: drop (Z.to_nat n) ds
  else if (-6 <? n) && (n <=? 0) then
    "0"%char :: "."%char :: zeros (- n) ++ ds
  else
    let e := n - 1 in
    let exponent :=
      "e"%char :: (if e <? 0 then "-"%char else "+"%char) :: decimal_digits (Z.abs e) in
    match ds with
    | [d] => d :: exponent
    | d :: ds' => d :: "."%char :: ds' ++ exponent
    | [] => exponent
    end.

Definition Number_toString (x : number) : string :=
  match x with
  | S754_nan => "NaN"
  | S754_zero _ => "0"
  | S754_infinity neg => if neg then "-Infinity" else "Infinity"
  | S754_finite neg m e =>
      let v := fraction m e in
      let lower := Z.min e 0 in
      let upper := Z.max (Zpos (digits2_pos m) + e) 0 in
      let n := magnitude10 (Z.to_nat (upper - lower)) (scale10 v lower) lower in
      let '(s, n') := shortest_digits 16 (S754_finite false m e) v n 1 in
      let str := format_digits (decimal_digits s) n' in
      String.string_of_list_ascii (if neg then "-"%char :: str else str)
  end.

(** *** Primitive values

    [QueryValue = string | number | boolean | undefined | null]. *)
Inductive QueryValue : Type :=
  | VUndefined
  | VNull
  | VBool (b : bool)
  | VNum (n : number)
  | VStr (s : string).

Inductive type_tag : Type :=
  | TUndefined | TObject | TBoolean | TNumber | TString.

Definition typeof (v : QueryValue) : type_tag :=
  match v with
  | VUndefined => TUndefined
  | VNull => TObject
  | VBool _ => TBoolean
  | VNum _ => TNumber
  | VStr _ => TString
  end.

(** [String(v)] *)
Definition String_ (v : QueryValue) : string :=
  match v with
  | VUndefined => "undefined"
  | VNull => "null"
  | VBool b => if b then "true" else "false"
  | VNum n => Number_toString n
  | VStr s => s
  end.

(** [Number(v)] *)
Definition Number_ (v : QueryValue) : number :=
  match v with
  | VUndefined => NaN
  | VNull => S754_zero false
  | VBool b => if b then of_Z 1 else S754_zero false
  | VNum n => n
  | VStr s => StringToNumber s
  end.

(** [isNaN(n)] on a number. *)
Definition isNaN (n : number) : bool :=
  match n with
  | S754_nan => true
  | _ => false
  end.

(** [v === s] for a string literal [s]. *)
Definition strict_eq_string (v : QueryValue) (s : string) : bool :=
  match v with
  | VStr s' => bool_decide (s' = s)
  | _ => false
  end.

End JS.

Import JS.

(** ** The router's query object

    [LocationQueryValue = string | null]; an entry of [route.query] is a
    [LocationQueryValue] or an array of them.  Reading a key that the
    query lacks gives [undefined], here [None]. *)
Inductive LocationQueryValue : Type :=
  | LNull
  | LString (s : string).

Inductive RouteValue : Type :=
  | Single (v : LocationQueryValue)
  | Multi (vs : list LocationQueryValue).

Abbreviation LocationQuery := (gmap string RouteValue).

Definition to_value (v : LocationQueryValue) : QueryValue :=
  match v with
  | LNull => VNull
  | LString s => VStr s
  end.

(** ** The reactive parameters

    A [Ref<QueryValue>] is a location of the store; [params] lists the
    properties of the object in [for ... in] order. *)
Abbreviation Ref := nat (only parsing).
Abbreviation Store := (nat -> QueryValue).
Abbreviation QueryParams := (list (string * nat)).

Inductive EmptyValueHandle : Type := Remove | Keep.

Module Options.
Record UseRouteQueryOptions : Type := {
  excludeKeys : option (list string);
  immediate : option bool;
  initFromRoute : option bool;
  emptyValueHandle : option EmptyValueHandle
}.
End Options.
Abbreviation UseRouteQueryOptions := Options.UseRouteQueryOptions.

(** ** The closure of [useRouteQuery] *)

(** [routeValue[0]] for an array, [String(routeValue)] otherwise. *)
Definition stringValue (routeValue : RouteValue) : QueryValue :=
  match routeValue with
  | Multi vs => from_option to_value VUndefined (vs !! 0%nat)
  | Single v => VStr (String_ (to_value v))
  end.

(** [routeValue !== undefined && routeValue !== null] *)
Definition is_present (routeValue : option RouteValue) : bool :=
  match routeValue with
  | None | Some (Single LNull) => false
  | Some _ => true
  end.

Definition convertRouteValue
    (routeValue : option RouteValue) (originalValue : QueryValue) : QueryValue :=
  match routeValue with
  | None | Some (Single LNull) => originalValue
  | Some routeValue =>
      let stringValue := stringValue routeValue in
      match typeof originalValue with
      | TNumber =>
          let num := Number_ stringValue in
          if isNaN num then originalValue else VNum num
      | TBoolean => VBool (strict_eq_string stringValue "true")
      | _ => stringValue
      end
  end.

(** [value === undefined || value === null || value === ""] *)
Definition is_empty (value : QueryValue) : bool :=
  match value with
  | VUndefined | VNull => true
  | v => strict_eq_string v ""
  end.

Section Hook.
Variable params : QueryParams.
Variable options : UseRouteQueryOptions.

(** Destructuring of [options] with its defaults. *)
Definition excludeKeys : list string := default [] (Options.excludeKeys options).
Definition immediate : bool := default true (Options.immediate options).
Definition initFromRoute : bool := default true (Options.initFromRoute options).
Definition emptyValueHandle : EmptyValueHandle :=
  default Remove (Options.emptyValueHandle options).

(** One iteration of the loop of [initParamsFromRoute]. *)
Definition initParamsFromRoute_body
    (route_query : LocationQuery) (σ : Store) (p : string * Ref) : Store :=
  let '(key, ref) := p in
  if bool_decide (key ∈ excludeKeys) then σ
  else
    let routeValue := route_query !! key in
    if is_present routeValue
    then <[ref := convertRouteValue routeValue (σ ref)]> σ
    else σ.

Definition initParamsFromRoute (route_query : LocationQuery) (σ : Store) : Store :=
  foldl (initParamsFromRoute_body route_query) σ params.

(** One iteration of the loop of [updateRouteQuery]. *)
Definition updateRouteQuery_body
    (σ : Store) (currentQuery : LocationQuery) (p : string * Ref) : LocationQuery :=
  let '(key, ref) := p in
  if bool_decide (key ∈ excludeKeys) then currentQuery
  else
    let value := σ ref in
    if is_empty value then
      match emptyValueHandle with
      | Remove => delete key currentQuery
      | Keep => <[key := Single (LString "")]> currentQuery
      end
    else <[key := Single (LString (String_ value))]> currentQuery.

(** The query given to [router.replace]. *)
Definition updateRouteQuery (route_query : LocationQuery) (σ : Store) : LocationQuery :=
  foldl (updateRouteQuery_body σ) route_query params.

(** One iteration of the loop of [resetParams]. *)
Definition resetParams_body
    (resetValues : option (gmap string QueryValue)) (σ : Store) (p : string * Ref) : Store :=
  let '(key, ref) := p in
  if bool_decide (key ∈ excludeKeys) then σ
  else
    match resetValues ≫= (.!! key) with
    | Some v => <[ref := v]> σ
    | None =>
        let currentValue := σ ref in
        match typeof currentValue with
        | TNumber => <[ref := VNum (S754_zero false)]> σ
        | TBoolean => <[ref := VBool false]> σ
        | _ => <[ref := VStr ""]> σ
        end
    end.

Definition resetParams
    (resetValues : option (gmap string QueryValue)) (σ : Store) : Store :=
  foldl (resetParams_body resetValues) σ params.

(** The getter given to [watch]: the values of the keys that are not
    excluded, in the order of [Object.keys(params)]. *)
Definition watch_source (σ : Store) : list QueryValue :=
  (λ p : string * Ref, σ p.2) <$> filter (λ p, p.1 ∉ excludeKeys) params.
End Hook.

(** ** Definitions used by the statements *)

(** What a non-excluded key with reactive value [value] leaves in the
    submitted query. *)
Definition committed (options : UseRouteQueryOptions) (value : QueryValue)
  : option RouteValue :=
  if is_empty value then
    match emptyValueHandle options with
    | Remove => None
    | Keep => Some (Single (LString ""))
    end
  else Some (Single (LString (String_ value))).

(** The default that [resetParams] derives from the current value. *)
Definition type_default (currentValue : QueryValue) : QueryValue :=
  match typeof currentValue with
  | TNumber => VNum (S754_zero false)
  | TBoolean => VBool false
  | _ => VStr ""
  end.

(** The value [resetParams] assigns for [key]. *)
Definition reset_value (resetValues : option (gmap string QueryValue))
    (key : string) (currentValue : QueryValue) : QueryValue :=
  match resetValues ≫= (.!! key) with
  | Some v => v
  | None => type_default currentValue
  end.

(** A store loop whose iteration for an excluded key does nothing and for
    any other key leaves [f key (σ ref)] in [ref]. *)
Definition assigns (options : UseRouteQueryOptions)
    (body : Store → string * Ref → Store)
    (f : string → QueryValue → QueryValue) : Prop :=
  ∀ σ key ref,
    (key ∈ excludeKeys options → body σ (key, ref) = σ) ∧
    (key ∉ excludeKeys options →
     ∀ r, body σ (key, ref) r = <[ref := f key (σ ref)]> σ r).

(** Closed decidable side conditions of the examples. *)
Ltac decide_by_evaluation := apply (bool_decide_unpack _); vm_compute; exact I.

(** Options used in the examples: all defaults, and the two explicit
    policies with one excluded key. *)
Definition default_options : UseRouteQueryOptions :=
  {| Options.excludeKeys := None; Options.immediate := None;
     Options.initFromRoute := None; Options.emptyValueHandle := None |}.

Definition keep_options : UseRouteQueryOptions :=
  {| Options.excludeKeys := Some ["internalFlag"]; Options.immediate := None;
     Options.initFromRoute := None; Options.emptyValueHandle := Some Keep |}.

Definition remove_options : UseRouteQueryOptions :=
  {| Options.excludeKeys := Some ["internalFlag"]; Options.immediate := None;
     Options.initFromRoute := None; Options.emptyValueHandle := Some Remove |}.

Definition example_params : QueryParams :=
  [("q", 0); ("page", 1); ("active", 2); ("internalFlag", 3)].

Definition example_store : Store :=
  λ ref,
    match ref with
    | 0 => VStr ""
    | 1 => VNum (of_Z 1)
    | 2 => VBool true
    | _ => VStr "draft"
    end.

Definition example_query : LocationQuery :=
  {[ "q" := Single (LString "vue");
     "internalFlag" := Single (LString "1");
     "tab" := Multi [LString "a"; LString "b"] ]}.

(** ** The ECMAScript conversions on sample inputs *)

Example Number_samples :
  StringToNumber "3" = of_Z 3 ∧
  StringToNumber " 42 " = of_Z 42 ∧
  StringToNumber "0x1F" = of_Z 31 ∧
  StringToNumber "1e3" = of_Z 1000 ∧
  StringToNumber "" = S754_zero false ∧
  StringToNumber "-0" = S754_zero true ∧
  StringToNumber "abc" = NaN ∧
  StringToNumber "12px" = NaN ∧
  StringToNumber "1e400" = Infinity false ∧
  StringToNumber "0.1" = S754_finite false 7205759403792794 (-56) ∧
  Number_ VNull = S754_zero false ∧
  Number_ VUndefined = NaN.
Proof. repeat split; by vm_compute. Qed.

Example String_samples :
  String_ (VNum (of_Z 3)) = "3" ∧
  String_ (VNum (of_Z (-42))) = "-42" ∧
  String_ (VNum (StringToNumber "0.1")) = "0.1" ∧
  String_ (VNum (StringToNumber "12.50")) = "12.5" ∧
  String_ (VNum (StringToNumber "1e21")) = "1e+21" ∧
  String_ (VNum (StringToNumber "0.0000001")) = "1e-7" ∧
  String_ (VNum (StringToNumber "9007199254740993")) = "9007199254740992" ∧
  String_ (VNum NaN) = "NaN" ∧
  String_ (VNum (S754_zero true)) = "0" ∧
  String_ (VBool false) = "false" ∧
  String_ VNull = "null" ∧
  String_ VUndefined = "undefined".
Proof. repeat split; by vm_compute. Qed.

(** [Number(String(x))] is [x] on the integers from -1000 to 1000 other than
    0, and [String] prints them without exponent or fraction. *)
Example integer_round_trip :
  forallb (λ z : Z,
             let x := of_Z z in
             is_number (StringToNumber (String_ (VNum x))) x &&
             bool_decide (String.length (String_ (VNum x)) ≤ 5))
          (seqZ (-1000) 1000 ++ seqZ 1 1000) = true.
Proof. by vm_compute. Qed.

(** ** Properties of the conversions *)

Lemma is_empty_spec (value : QueryValue) :
  is_empty value = true ↔ value = VStr "" ∨ value = VUndefined ∨ value = VNull.
Proof.
  destruct value as [| |b|n|s]; cbn.
  - split; [by right; left|done].
  - split; [by right; right|done].
  - split; [done|]. by intros [|[|]].
  - split; [done|]. by intros [|[|]].
  - rewrite bool_decide_eq_true. split.
    + intros ->. by left.
    + intros [[= ->]|[|]]; done.
Qed.

(** [convertRouteValue] on an entry that passes the presence check, by the
    type of the original value. *)
Lemma convertRouteValue_number (routeValue : RouteValue) (n : number) :
  is_present (Some routeValue) →
  convertRouteValue (Some routeValue) (VNum n)
  = if isNaN (Number_ (stringValue routeValue)) then VNum n
    else VNum (Number_ (stringValue routeValue)).
Proof. by destruct routeValue as [[|s]|vs]. Qed.

Lemma convertRouteValue_boolean (routeValue : RouteValue) (b : bool) :
  is_present (Some routeValue) →
  convertRouteValue (Some routeValue) (VBool b)
  = VBool (strict_eq_string (stringValue routeValue) "true").
Proof. by destruct routeValue as [[|s]|vs]. Qed.

Lemma convertRouteValue_other (routeValue : RouteValue) (originalValue : QueryValue) :
  is_present (Some routeValue) →
  typeof originalValue ≠ TNumber →
  typeof originalValue ≠ TBoolean →
  convertRouteValue (Some routeValue) originalValue = stringValue routeValue.
Proof. by destruct routeValue as [[|s]|vs], originalValue. Qed.

(** The string that [convertRouteValue] works on: a plain string entry, or
    the first element of an array entry when that element is a string. *)
Lemma stringValue_string (routeValue : RouteValue) (s : string) :
  routeValue = Single (LString s) ∨ (∃ vs, routeValue = Multi (LString s :: vs)) →
  is_present (Some routeValue) ∧ stringValue routeValue = VStr s.
Proof. by intros [->|[vs ->]]. Qed.

(** ** Properties of [updateRouteQuery] *)

Section UpdateRouteQuery.
Context (options : UseRouteQueryOptions) (σ : Store).
Implicit Types (params : QueryParams) (query : LocationQuery).
Implicit Types (key : string) (ref : Ref).

Lemma updateRouteQuery_body_ne query key k ref :
  k ≠ key →
  updateRouteQuery_body options σ query (k, ref) !! key = query !! key.
Proof.
  intros Hne. unfold updateRouteQuery_body.
  case_bool_decide; [done|].
  destruct (is_empty (σ ref)); [destruct (emptyValueHandle options)|].
  - by rewrite lookup_delete_ne.
  - by rewrite lookup_insert_ne.
  - by rewrite lookup_insert_ne.
Qed.

Lemma updateRouteQuery_body_excluded query k ref :
  k ∈ excludeKeys options →
  updateRouteQuery_body options σ query (k, ref) = query.
Proof. intros Hin. unfold updateRouteQuery_body. by rewrite bool_decide_true. Qed.

Lemma updateRouteQuery_body_eq query key ref :
  key ∉ excludeKeys options →
  updateRouteQuery_body options σ query (key, ref) !! key = committed options (σ ref).
Proof.
  intros Hex. unfold updateRouteQuery_body, committed.
  rewrite bool_decide_false by done.
  destruct (is_empty (σ ref)); [destruct (emptyValueHandle options)|].
  - by rewrite lookup_delete_eq.
  - by rewrite lookup_insert_eq.
  - by rewrite lookup_insert_eq.
Qed.

(** Keys that are excluded, or that the table lacks, keep their entry. *)
Lemma updateRouteQuery_frame params query key :
  key ∈ excludeKeys options ∨ key ∉ params.*1 →
  updateRouteQuery params options query σ !! key = query !! key.
Proof.
  unfold updateRouteQuery. revert query.
  induction params as [|[k ref] params IH]; intros query Hkey; [done|].
  cbn [foldl]. rewrite IH.
  - destruct (decide (k = key)) as [->|Hne].
    + destruct Hkey as [Hex|Hnin].
      * by rewrite updateRouteQuery_body_excluded.
      * exfalso. apply Hnin. rewrite fmap_cons. apply list_elem_of_here.
    + by apply updateRouteQuery_body_ne.
  - destruct Hkey as [Hex|Hnin]; [by left|right].
    rewrite fmap_cons in Hnin. by apply not_elem_of_cons in Hnin as [_ ?].
Qed.

(** A non-excluded key of the table ends with the entry of its value. *)
Lemma updateRouteQuery_lookup params query key ref :
  NoDup params.*1 →
  (key, ref) ∈ params →
  key ∉ excludeKeys options →
  updateRouteQuery params options query σ !! key = committed options (σ ref).
Proof.
  unfold updateRouteQuery. revert query.
  induction params as [|[k r] params IH]; intros query Hnd Hin Hex.
  - by apply elem_of_nil in Hin.
  - rewrite fmap_cons in Hnd. apply NoDup_cons in Hnd as [Hk Hnd].
    cbn [foldl]. apply elem_of_cons in Hin as [Heq|Hin].
    + injection Heq as <- <-.
      pose proof (updateRouteQuery_frame params
        (updateRouteQuery_body options σ query (key, ref)) key) as Hframe.
      unfold updateRouteQuery in Hframe. rewrite Hframe by by right.
      by apply updateRouteQuery_body_eq.
    + by apply IH.
Qed.
End UpdateRouteQuery.

(** ** Properties of the operations that write the references *)

Section StoreLoops.
Context (options : UseRouteQueryOptions).
Implicit Types (params : QueryParams) (query : LocationQuery) (σ : Store).
Implicit Types (key : string) (ref : Ref).

Lemma assigns_frame body f params σ ref :
  assigns options body f →
  (∀ k, (k, ref) ∈ params → k ∈ excludeKeys options) →
  foldl body σ params ref = σ ref.
Proof.
  intros Hbody. revert σ.
  induction params as [|[k r] params IH]; intros σ Hex; [done|].
  cbn [foldl]. rewrite IH.
  - destruct (Hbody σ k r) as [Hskip Hset].
    destruct (decide (k ∈ excludeKeys options)) as [Hk|Hk].
    + by rewrite Hskip.
    + rewrite Hset by done. apply fn_lookup_insert_ne. intros ->.
      apply Hk, Hex, list_elem_of_here.
  - intros k' Hin. apply Hex. by apply list_elem_of_further.
Qed.

Lemma assigns_lookup body f params σ key ref :
  assigns options body f →
  NoDup params.*2 →
  (key, ref) ∈ params →
  key ∉ excludeKeys options →
  foldl body σ params ref = f key (σ ref).
Proof.
  intros Hbody. revert σ.
  induction params as [|[k r] params IH]; intros σ Hnd Hin Hex.
  - by apply elem_of_nil in Hin.
  - rewrite fmap_cons in Hnd. apply NoDup_cons in Hnd as [Hr Hnd].
    cbn [foldl]. destruct (Hbody σ k r) as [Hskip Hset].
    apply elem_of_cons in Hin as [Heq|Hin].
    + injection Heq as <- <-.
      rewrite (assigns_frame body f) by
        (done || intros k' Hk'; exfalso; apply Hr;
         by apply (list_elem_of_fmap_2 snd) in Hk').
      rewrite Hset by done. apply fn_lookup_insert.
    + rewrite IH by done. f_equal.
      destruct (decide (k ∈ excludeKeys options)) as [Hk|Hk].
      * by rewrite Hskip.
      * rewrite Hset by done. apply fn_lookup_insert_ne. intros ->.
        apply Hr. by apply (list_elem_of_fmap_2 snd) in Hin.
Qed.

(** Entries of an excluded key can be dropped from the table. *)
Lemma assigns_filter body f params σ key :
  assigns options body f →
  key ∈ excludeKeys options →
  foldl body σ params = foldl body σ (filter (λ p, p.1 ≠ key) params).
Proof.
  intros Hbody Hex. revert σ.
  induction params as [|[k r] params IH]; intros σ; [done|].
  cbn [foldl]. destruct (decide (k = key)) as [->|Hne].
  - rewrite filter_cons_False by (cbn; tauto).
    destruct (Hbody σ key r) as [Hskip _]. rewrite Hskip by done. apply IH.
  - rewrite filter_cons_True by done. cbn [foldl]. apply IH.
Qed.

Lemma initParamsFromRoute_assigns query :
  assigns options (initParamsFromRoute_body options query)
    (λ key v, convertRouteValue (query !! key) v).
Proof.
  intros σ key ref. unfold initParamsFromRoute_body. split; intros Hex.
  - by rewrite bool_decide_true.
  - intros r. rewrite bool_decide_false by done.
    destruct (query !! key) as [[[|s]|vs]|]; cbn [is_present]; try done.
    + destruct (decide (ref = r)) as [->|Hne];
        [by rewrite fn_lookup_insert|by rewrite fn_lookup_insert_ne].
    + destruct (decide (ref = r)) as [->|Hne];
        [by rewrite fn_lookup_insert|by rewrite fn_lookup_insert_ne].
Qed.

Lemma resetParams_assigns resetValues :
  assigns options (resetParams_body options resetValues) (reset_value resetValues).
Proof.
  intros σ key ref. unfold resetParams_body, reset_value, type_default.
  split; intros Hex.
  - by rewrite bool_decide_true.
  - intros r. rewrite bool_decide_false by done.
    destruct (resetValues ≫= _); [done|].
    by destruct (typeof (σ ref)).
Qed.

(** Seeding: a non-excluded key whose reference no other key shares ends
    with the conversion of its query entry. *)
Lemma initParamsFromRoute_lookup params query σ key ref :
  NoDup params.*2 →
  (key, ref) ∈ params →
  key ∉ excludeKeys options →
  initParamsFromRoute params options query σ ref
  = convertRouteValue (query !! key) (σ ref).
Proof.
  intros. unfold initParamsFromRoute.
  by rewrite (assigns_lookup _ _ _ _ key ref (initParamsFromRoute_assigns query)).
Qed.


(** The query entries of excluded keys do not influence seeding. *)
Lemma initParamsFromRoute_query_irrelevant params query query' σ :
  (∀ k, k ∉ excludeKeys options → query' !! k = query !! k) →
  initParamsFromRoute params options query' σ
  = initParamsFromRoute params options query σ.
Proof.
  intros Hq. unfold initParamsFromRoute. revert σ.
  induction params as [|[k r] params IH]; intros σ; [done|].
  cbn [foldl]. rewrite IH. f_equal.
  unfold initParamsFromRoute_body. case_bool_decide; [done|].
  by rewrite Hq.
Qed.
End StoreLoops.

(** Seeding a non-excluded key whose reference no other key shares, from a
    string entry of the query. *)
Lemma initParamsFromRoute_string
    (params : QueryParams) (options : UseRouteQueryOptions)
    (route_query : LocationQuery) (σ : Store) (key : string) (ref : Ref)
    (routeValue : RouteValue) (s : string) :
  NoDup params.*2 →
  (key, ref) ∈ params →
  key ∉ excludeKeys options →
  route_query !! key = Some routeValue →
  routeValue = Single (LString s) ∨ (∃ vs, routeValue = Multi (LString s :: vs)) →
  initParamsFromRoute params options route_query σ ref
  = match typeof (σ ref) with
    | TNumber =>
        if isNaN (StringToNumber s) then σ ref else VNum (StringToNumber s)
    | TBoolean => VBool (bool_decide (s = "true"))
    | _ => VStr s
    end.
Proof.
  intros Hnd Hin Hex Hentry Hstring.
  rewrite (initParamsFromRoute_lookup options params route_query σ key ref) by done.
  rewrite Hentry. apply stringValue_string in Hstring as [Hpresent Hs].
  destruct (σ ref) as [| |b|n|s'] eqn:Hσ.
  - by rewrite convertRouteValue_other.
  - by rewrite convertRouteValue_other.
  - by rewrite convertRouteValue_boolean, Hs.
  - by rewrite convertRouteValue_number, Hs.
  - by rewrite convertRouteValue_other.
Qed.

(** ** Main results *)

(** C1: with [emptyValueHandle = "remove"] a non-excluded key whose
    reactive value is the empty string, [undefined] or [null] is absent from
    the query handed to [router.replace], whatever the prior query held for
    that key. *)
Theorem C1_remove_drops_empty_value
    (params : QueryParams) (options : UseRouteQueryOptions)
    (route_query : LocationQuery) (σ : Store) (key : string) (ref : Ref) :
  emptyValueHandle options = Remove →
  NoDup params.*1 →
  (key, ref) ∈ params →
  key ∉ excludeKeys options →
  σ ref = VStr "" ∨ σ ref = VUndefined ∨ σ ref = VNull →
  updateRouteQuery params options route_query σ !! key = None.
Proof.
  intros Hremove Hnd Hin Hex Hempty.
  rewrite (updateRouteQuery_lookup options σ params route_query key ref) by done.
  unfold committed. apply is_empty_spec in Hempty. by rewrite Hempty, Hremove.
Qed.

Lemma C1_witness :
  example_query !! "q" = Some (Single (LString "vue")) ∧
  updateRouteQuery example_params default_options example_query example_store !! "q"
  = None.
Proof.
  split; [by vm_compute|].
  apply (C1_remove_drops_empty_value example_params default_options
           example_query example_store "q" 0).
  - reflexivity.
  - decide_by_evaluation.
  - decide_by_evaluation.
  - decide_by_evaluation.
  - left. reflexivity.
Defined.



(** C3: seeding [{page: "3"}] into a parameter that holds the number 1
    gives the number 3, and committing that value gives [page -> "3"]
    again. *)
Theorem C3_page_round_trip
    (options : UseRouteQueryOptions) (σ : Store) (ref : Ref)
    (prior : LocationQuery) :
  "page" ∉ excludeKeys options →
  σ ref = VNum (of_Z 1) →
  let params := [("page", ref)] in
  let route_query : LocationQuery := {[ "page" := Single (LString "3") ]} in
  let σ' := initParamsFromRoute params options route_query σ in
  σ' ref = VNum (of_Z 3) ∧
  updateRouteQuery params options prior σ' !! "page" = Some (Single (LString "3")) ∧
  updateRouteQuery params options route_query σ' = route_query.
Proof.
  intros Hex Hσ params route_query σ'.
  assert (NoDup params.*1) as Hnd1 by (apply NoDup_singleton).
  assert (NoDup params.*2) as Hnd2 by (apply NoDup_singleton).
  assert (("page", ref) ∈ params) as Hin by (apply list_elem_of_here).
  assert (σ' ref = VNum (of_Z 3)) as Hseed.
  { unfold σ'.
    rewrite (initParamsFromRoute_lookup options params route_query σ "page" ref)
      by done.
    rewrite Hσ. by vm_compute. }
  assert (∀ q : LocationQuery,
            updateRouteQuery params options q σ' !! "page"
            = Some (Single (LString "3"))) as Hcommit.
  { intros q.
    rewrite (updateRouteQuery_lookup options σ' params q "page" ref) by done.
    rewrite Hseed. by vm_compute. }
  split; [done|]. split; [done|].
  apply map_eq. intros key. destruct (decide (key = "page")) as [->|Hne].
  - rewrite Hcommit. by vm_compute.
  - apply updateRouteQuery_frame. right.
    intros [Heq|Hnil]%elem_of_cons; [done|by apply elem_of_nil in Hnil].
Qed.

Lemma C3_witness :
  let params := [("page", 1)] in
  let route_query : LocationQuery := {[ "page" := Single (LString "3") ]} in
  let σ' := initParamsFromRoute params default_options route_query example_store in
  example_store 1 = VNum (of_Z 1) ∧
  σ' 1 = VNum (of_Z 3) ∧
  updateRouteQuery params default_options example_query σ' !! "page"
  = Some (Single (LString "3")) ∧
  updateRouteQuery params default_options route_query σ' = route_query.
Proof.
  split; [reflexivity|].
  apply (C3_page_round_trip default_options example_store 1 example_query).
  - decide_by_evaluation.
  - reflexivity.
Defined.

(** C4: for a key listed in [excludeKeys], [initParamsFromRoute] does not
    depend on the query entry of that key and behaves as if the table had no
    such key, so a reference that only excluded keys hold is not written;
    [updateRouteQuery] submits the prior entry of that key, present or
    absent, unchanged. *)
Theorem C4_excluded_key_untouched
    (params : QueryParams) (options : UseRouteQueryOptions) (key : string) :
  key ∈ excludeKeys options →
  (∀ (route_query : LocationQuery) (entry : option RouteValue) (σ : Store),
     initParamsFromRoute params options (partial_alter (λ _, entry) key route_query) σ
     = initParamsFromRoute params options route_query σ) ∧
  (∀ (route_query : LocationQuery) (σ : Store),
     initParamsFromRoute params options route_query σ
     = initParamsFromRoute (filter (λ p, p.1 ≠ key) params) options route_query σ) ∧
  (∀ (route_query : LocationQuery) (σ : Store) (ref : Ref),
     (key, ref) ∈ params →
     (∀ k, (k, ref) ∈ params → k ∈ excludeKeys options) →
     initParamsFromRoute params options route_query σ ref = σ ref) ∧
  (∀ (route_query : LocationQuery) (σ : Store),
     updateRouteQuery params options route_query σ !! key = route_query !! key).
Proof.
  intros Hex. split; [|split; [|split]].
  - intros route_query entry σ.
    apply initParamsFromRoute_query_irrelevant. intros k Hk.
    apply lookup_partial_alter_ne. by intros ->.
  - intros route_query σ. unfold initParamsFromRoute.
    by apply (assigns_filter options _ _ params σ key
                (initParamsFromRoute_assigns options route_query)).
  - intros route_query σ ref _ Honly. unfold initParamsFromRoute.
    by apply (assigns_frame options _ _ params σ ref
                (initParamsFromRoute_assigns options route_query)).
  - intros route_query σ. apply updateRouteQuery_frame. by left.
Qed.

Lemma C4_witness :
  "internalFlag" ∈ excludeKeys remove_options ∧
  ("internalFlag", 3) ∈ example_params ∧
  example_query !! "internalFlag" = Some (Single (LString "1")) ∧
  initParamsFromRoute example_params remove_options example_query example_store 3
  = VStr "draft" ∧
  updateRouteQuery example_params remove_options example_query example_store
    !! "internalFlag" = Some (Single (LString "1")).
Proof.
  assert ("internalFlag" ∈ excludeKeys remove_options) as Hex
    by decide_by_evaluation.
  assert (("internalFlag", 3) ∈ example_params) as Hin by decide_by_evaluation.
  destruct (C4_excluded_key_untouched example_params remove_options
              "internalFlag" Hex) as (_ & _ & Hkeep & Hsubmit).
  split; [exact Hex|]. split; [exact Hin|]. split; [by vm_compute|]. split.
  - apply (Hkeep example_query example_store 3 Hin).
    intros k Hk.
    repeat (apply elem_of_cons in Hk as [Heq|Hk]; [try discriminate Heq|]).
    + injection Heq as ->. exact Hex.
    + by apply elem_of_nil in Hk.
  - apply Hsubmit.
Defined.

(** C5: for a parameter that holds a number, seeding parses the query
    string (the first element of an array entry) with [Number]; when the
    result is [NaN] the parameter keeps its prior value, otherwise it
    receives the parsed number.  The conversion is a total function. *)
Theorem C5_number_parse_failure_keeps_value
    (params : QueryParams) (options : UseRouteQueryOptions)
    (route_query : LocationQuery) (σ : Store) (key : string) (ref : Ref)
    (routeValue : RouteValue) (s : string) (n : number) :
  NoDup params.*2 →
  (key, ref) ∈ params →
  key ∉ excludeKeys options →
  σ ref = VNum n →
  route_query !! key = Some routeValue →
  routeValue = Single (LString s) ∨ (∃ vs, routeValue = Multi (LString s :: vs)) →
  let σ' := initParamsFromRoute params options route_query σ in
  (isNaN (StringToNumber s) = true → σ' ref = VNum n) ∧
  (isNaN (StringToNumber s) = false → σ' ref = VNum (StringToNumber s)).
Proof.
  intros Hnd Hin Hex Hσ Hentry Hstring σ'. unfold σ'.
  rewrite (initParamsFromRoute_string params options route_query σ key ref
             routeValue s) by done.
  rewrite Hσ. cbn [typeof]. by split; intros ->.
Qed.

Lemma C5_witness :
  let route_query : LocationQuery := {[ "page" := Single (LString "abc") ]} in
  let σ : Store := λ _, VNum (of_Z 5) in
  isNaN (StringToNumber "abc") = true ∧
  initParamsFromRoute example_params default_options route_query σ 1
  = VNum (of_Z 5).
Proof.
  intros route_query σ. split; [by vm_compute|].
  apply (C5_number_parse_failure_keeps_value example_params default_options
           route_query σ "page" 1 (Single (LString "abc")) "abc" (of_Z 5)).
  - decide_by_evaluation.
  - decide_by_evaluation.
  - decide_by_evaluation.
  - reflexivity.
  - by vm_compute.
  - left. reflexivity.
  - by vm_compute.
Defined.

(** C6: for a parameter that holds a boolean, seeding from a query string
    assigns [true] exactly when the string is ["true"] and [false] for every
    other string; the result is always a boolean. *)
Theorem C6_boolean_only_true_is_true
    (params : QueryParams) (options : UseRouteQueryOptions)
    (route_query : LocationQuery) (σ : Store) (key : string) (ref : Ref)
    (routeValue : RouteValue) (s : string) (b : bool) :
  NoDup params.*2 →
  (key, ref) ∈ params →
  key ∉ excludeKeys options →
  σ ref = VBool b →
  route_query !! key = Some routeValue →
  routeValue = Single (LString s) ∨ (∃ vs, routeValue = Multi (LString s :: vs)) →
  let σ' := initParamsFromRoute params options route_query σ in
  (s = "true" → σ' ref = VBool true) ∧
  (s ≠ "true" → σ' ref = VBool false).
Proof.
  intros Hnd Hin Hex Hσ Hentry Hstring σ'. unfold σ'.
  rewrite (initParamsFromRoute_string params options route_query σ key ref
             routeValue s) by done.
  rewrite Hσ. cbn [typeof]. split; intros Hs.
  - by rewrite bool_decide_true.
  - by rewrite bool_decide_false.
Qed.

Lemma C6_witness :
  let σ : Store := λ _, VBool true in
  let seeded (s : string) :=
    initParamsFromRoute example_params default_options
      {[ "active" := Single (LString s) ]} σ 2 in
  seeded "maybe" = VBool false ∧ seeded "false" = VBool false ∧
  seeded "1" = VBool false ∧ seeded "true" = VBool true.
Proof.
  intros σ seeded.
  assert (∀ s : string,
            (s = "true" → seeded s = VBool true) ∧
            (s ≠ "true" → seeded s = VBool false)) as Hseeded.
  { intros s.
    apply (C6_boolean_only_true_is_true example_params default_options
             {[ "active" := Single (LString s) ]} σ "active" 2
             (Single (LString s)) s true).
    - decide_by_evaluation.
    - decide_by_evaluation.
    - decide_by_evaluation.
    - reflexivity.
    - apply lookup_singleton_eq.
    - left. reflexivity. }
  split; [|split; [|split]].
  - by apply (proj2 (Hseeded "maybe")).
  - by apply (proj2 (Hseeded "false")).
  - by apply (proj2 (Hseeded "1")).
  - by apply (proj1 (Hseeded "true")).
Defined.



(** C8: a key of the current query that the parameter table lacks keeps its
    entry in the submitted query. *)
Theorem C8_foreign_key_survives
    (params : QueryParams) (options : UseRouteQueryOptions)
    (route_query : LocationQuery) (σ : Store) (key : string) (entry : RouteValue) :
  route_query !! key = Some entry →
  key ∉ params.*1 →
  updateRouteQuery params options route_query σ !! key = Some entry.
Proof.
  intros Hentry Hnin.
  rewrite (updateRouteQuery_frame options σ params route_query key) by by right.
  exact Hentry.
Qed.

Lemma C8_witness :
  example_query !! "tab" = Some (Multi [LString "a"; LString "b"]) ∧
  updateRouteQuery example_params remove_options example_query example_store !! "tab"
  = Some (Multi [LString "a"; LString "b"]).
Proof.
  split; [by vm_compute|].
  apply (C8_foreign_key_survives example_params remove_options example_query
           example_store "tab").
  - by vm_compute.
  - decide_by_evaluation.
Defined.

(** C9 (failing input): the query of the URL [?q&q=a] holds the array
    [[null, "a"]] under [q]; seeding it into a parameter that holds a string
    assigns [null], the unconverted first element, not a string.  An empty
    array entry assigns [undefined] in the same way. *)
Theorem C9_array_entry_assigns_non_string :
  let params : QueryParams := [("q", 0)] in
  let σ : Store := λ _, VStr "x" in
  initParamsFromRoute params default_options
    {[ "q" := Multi [LNull; LString "a"] ]} σ 0 = VNull ∧
  initParamsFromRoute params default_options {[ "q" := Multi [] ]} σ 0 = VUndefined.
Proof. split; by vm_compute. Qed.

(** C10: the empty string passes the presence check, and seeding it into a
    parameter that holds a number assigns the number 0, since [Number] of
    the empty string is 0 and not [NaN]; the prior value is not kept. *)
Theorem C10_empty_string_seeds_zero
    (params : QueryParams) (options : UseRouteQueryOptions)
    (route_query : LocationQuery) (σ : Store) (key : string) (ref : Ref)
    (n : number) :
  NoDup params.*2 →
  (key, ref) ∈ params →
  key ∉ excludeKeys options →
  σ ref = VNum n →
  route_query !! key = Some (Single (LString "")) →
  is_present (route_query !! key) = true ∧
  Number_ (VStr "") = S754_zero false ∧
  isNaN (Number_ (VStr "")) = false ∧
  initParamsFromRoute params options route_query σ ref = VNum (S754_zero false).
Proof.
  intros Hnd Hin Hex Hσ Hentry.
  split; [by rewrite Hentry|]. split; [by vm_compute|]. split; [by vm_compute|].
  rewrite (initParamsFromRoute_string params options route_query σ key ref
             (Single (LString "")) "") by (done || by left).
  by rewrite Hσ.
Qed.

Lemma C10_witness :
  let route_query : LocationQuery := {[ "page" := Single (LString "") ]} in
  let σ : Store := λ _, VNum (of_Z 5) in
  σ 1 = VNum (of_Z 5) ∧
  initParamsFromRoute example_params default_options route_query σ 1
  = VNum (S754_zero false).
Proof.
  intros route_query σ. split; [reflexivity|].
  apply (C10_empty_string_seeds_zero example_params default_options
           route_query σ "page" 1 (of_Z 5)).
  - decide_by_evaluation.
  - decide_by_evaluation.
  - decide_by_evaluation.
  - reflexivity.
  - by vm_compute.
Defined.

(** ** Further properties of the conversions *)

(** [stringValue] is a string, [null] or [undefined]. *)
Lemma stringValue_typeof (routeValue : RouteValue) :
  typeof (stringValue routeValue) ≠ TNumber ∧
  typeof (stringValue routeValue) ≠ TBoolean.
Proof.
  destruct routeValue as [v|[|[|s] vs]]; by cbn.
Qed.

(** Converting twice from the same entry is converting once. *)
Lemma convertRouteValue_idemp
    (routeValue : option RouteValue) (originalValue : QueryValue) :
  convertRouteValue routeValue (convertRouteValue routeValue originalValue)
  = convertRouteValue routeValue originalValue.
Proof.
  destruct routeValue as [routeValue|]; [|done].
  destruct (is_present (Some routeValue)) eqn:Hpresent.
  - apply Is_true_true in Hpresent.
    destruct (stringValue_typeof routeValue) as [Hnum Hbool].
    destruct originalValue as [| |b|n|s].
    + rewrite (convertRouteValue_other routeValue VUndefined) by done.
      by rewrite convertRouteValue_other.
    + rewrite (convertRouteValue_other routeValue VNull) by done.
      by rewrite convertRouteValue_other.
    + rewrite (convertRouteValue_boolean routeValue b) by done.
      by rewrite convertRouteValue_boolean.
    + rewrite (convertRouteValue_number routeValue n) by done.
      destruct (isNaN (Number_ (stringValue routeValue))) eqn:Hnan;
        rewrite convertRouteValue_number by done; by rewrite Hnan.
    + rewrite (convertRouteValue_other routeValue (VStr s)) by done.
      by rewrite convertRouteValue_other.
  - by destruct routeValue as [[|s]|vs].
Qed.

(** A number stays a number and a boolean stays a boolean. *)
Lemma convertRouteValue_typeof
    (routeValue : option RouteValue) (originalValue : QueryValue) :
  typeof originalValue = TNumber ∨ typeof originalValue = TBoolean →
  typeof (convertRouteValue routeValue originalValue) = typeof originalValue.
Proof.
  intros Htype. destruct routeValue as [routeValue|]; [|done].
  destruct (is_present (Some routeValue)) eqn:Hpresent.
  - apply Is_true_true in Hpresent.
    destruct originalValue as [| |b|n|s]; try (by destruct Htype).
    + by rewrite convertRouteValue_boolean.
    + rewrite convertRouteValue_number by done. by destruct (isNaN _).
  - by destruct routeValue as [[|s]|vs].
Qed.

(** [NaN] is never the result of converting into a number that is not
    [NaN]. *)
Lemma convertRouteValue_not_NaN (routeValue : option RouteValue) (n : number) :
  isNaN n = false →
  ∃ n', convertRouteValue routeValue (VNum n) = VNum n' ∧ isNaN n' = false.
Proof.
  intros Hn. destruct routeValue as [routeValue|]; [|by exists n].
  destruct (is_present (Some routeValue)) eqn:Hpresent.
  - apply Is_true_true in Hpresent.
    rewrite convertRouteValue_number by done.
    destruct (isNaN (Number_ (stringValue routeValue))) eqn:Hnan; eauto.
  - exists n. by destruct routeValue as [[|s]|vs].
Qed.

(** The keys of a table whose references are distinct are determined by
    the reference. *)
Lemma NoDup_snd_key (params : QueryParams) (k k' : string) (ref : Ref) :
  NoDup params.*2 → (k, ref) ∈ params → (k', ref) ∈ params → k = k'.
Proof.
  induction params as [|[k0 r0] params IH]; intros Hnd Hk Hk'.
  - by apply elem_of_nil in Hk.
  - rewrite fmap_cons in Hnd. apply NoDup_cons in Hnd as [Hr Hnd].
    apply elem_of_cons in Hk as [Hk|Hk]; apply elem_of_cons in Hk' as [Hk'|Hk'].
    + congruence.
    + injection Hk as -> ->. exfalso. apply Hr.
      by apply (list_elem_of_fmap_2 snd) in Hk'.
    + injection Hk' as -> ->. exfalso. apply Hr.
      by apply (list_elem_of_fmap_2 snd) in Hk.
    + by apply IH.
Qed.

(** A loop that assigns an idempotent function of the current value is
    idempotent on a table whose references are distinct. *)
Lemma assigns_idemp (options : UseRouteQueryOptions)
    (body : Store → string * Ref → Store)
    (f : string → QueryValue → QueryValue) (params : QueryParams) (σ : Store) :
  assigns options body f →
  (∀ key v, f key (f key v) = f key v) →
  NoDup params.*2 →
  ∀ r, foldl body (foldl body σ params) params r = foldl body σ params r.
Proof.
  intros Hbody Hf Hnd r.
  destruct (decide (r ∈ params.*2)) as [Hin|Hnin].
  - apply list_elem_of_fmap in Hin as [[k r'] [-> Hin]]. cbn.
    destruct (decide (k ∈ excludeKeys options)) as [Hex|Hex].
    + assert (∀ k', (k', r') ∈ params → k' ∈ excludeKeys options) as Honly.
      { intros k' Hk'. by rewrite <- (NoDup_snd_key params k k' r'). }
      by rewrite !(assigns_frame options body f params _ r').
    + by rewrite !(assigns_lookup options body f params _ k r'), Hf.
  - assert (∀ k', (k', r) ∈ params → k' ∈ excludeKeys options) as Honly.
    { intros k' Hk'. exfalso. apply Hnin.
      by apply (list_elem_of_fmap_2 snd) in Hk'. }
    by rewrite !(assigns_frame options body f params _ r).
Qed.

(** On a table whose references are distinct, a reference either keeps its
    value or receives the value computed for the one key that holds it. *)
Lemma assigns_cases (options : UseRouteQueryOptions)
    (body : Store → string * Ref → Store)
    (f : string → QueryValue → QueryValue) (params : QueryParams) (σ : Store)
    (r : Ref) :
  assigns options body f →
  NoDup params.*2 →
  foldl body σ params r = σ r ∨
  (∃ key, (key, r) ∈ params ∧ (key ∉ excludeKeys options) ∧
          foldl body σ params r = f key (σ r)).
Proof.
  intros Hbody Hnd.
  destruct (decide (r ∈ params.*2)) as [Hin|Hnin].
  - apply list_elem_of_fmap in Hin as [[k r'] [-> Hin]]. cbn.
    destruct (decide (k ∈ excludeKeys options)) as [Hex|Hex].
    + left. apply (assigns_frame options body f); [done|].
      intros k' Hk'. by rewrite <- (NoDup_snd_key params k k' r').
    + right. exists k. split; [done|]. split; [done|].
      by apply (assigns_lookup options body f).
  - left. apply (assigns_frame options body f); [done|].
    intros k' Hk'. exfalso. apply Hnin.
    by apply (list_elem_of_fmap_2 snd) in Hk'.
Qed.

(** ** Further properties of [initParamsFromRoute] *)



(** X2: on a table whose references are distinct, seeding keeps the type of
    every number and of every boolean, whatever the query holds. *)
Theorem X2_seed_keeps_number_and_boolean_type
    (params : QueryParams) (options : UseRouteQueryOptions)
    (route_query : LocationQuery) (σ : Store) (ref : Ref) :
  NoDup params.*2 →
  typeof (σ ref) = TNumber ∨ typeof (σ ref) = TBoolean →
  typeof (initParamsFromRoute params options route_query σ ref) = typeof (σ ref).
Proof.
  intros Hnd Htype. unfold initParamsFromRoute.
  destruct (assigns_cases options _ _ params σ ref
              (initParamsFromRoute_assigns options route_query) Hnd)
    as [-> | (key & _ & _ & ->)]; [done|].
  by apply convertRouteValue_typeof.
Qed.

Lemma X2_witness :
  let route_query : LocationQuery :=
    {[ "page" := Multi [LNull; LString "7"]; "active" := Single (LString "x") ]} in
  let σ' := initParamsFromRoute example_params default_options route_query
              example_store in
  typeof (σ' 1) = TNumber ∧ typeof (σ' 2) = TBoolean.
Proof.
  intros route_query σ'.
  assert (NoDup example_params.*2) as Hnd by decide_by_evaluation.
  split.
  - apply (X2_seed_keeps_number_and_boolean_type example_params default_options
             route_query example_store 1 Hnd). left. reflexivity.
  - apply (X2_seed_keeps_number_and_boolean_type example_params default_options
             route_query example_store 2 Hnd). right. reflexivity.
Defined.

(** X3: on a table whose references are distinct, a parameter that holds a
    number other than [NaN] holds a number other than [NaN] after seeding,
    whatever the query holds. *)
Theorem X3_seed_never_introduces_NaN
    (params : QueryParams) (options : UseRouteQueryOptions)
    (route_query : LocationQuery) (σ : Store) (ref : Ref) (n : number) :
  NoDup params.*2 →
  σ ref = VNum n →
  isNaN n = false →
  ∃ n', initParamsFromRoute params options route_query σ ref = VNum n' ∧
        isNaN n' = false.
Proof.
  intros Hnd Hσ Hn. unfold initParamsFromRoute.
  destruct (assigns_cases options _ _ params σ ref
              (initParamsFromRoute_assigns options route_query) Hnd)
    as [-> | (key & _ & _ & ->)].
  - by exists n.
  - rewrite Hσ. by apply convertRouteValue_not_NaN.
Qed.

Lemma X3_witness :
  let route_query : LocationQuery := {[ "page" := Single (LString "1e") ]} in
  ∃ n', initParamsFromRoute example_params default_options route_query
          example_store 1 = VNum n' ∧ isNaN n' = false.
Proof.
  intros route_query.
  apply (X3_seed_never_introduces_NaN example_params default_options
           route_query example_store 1 (of_Z 1)).
  - decide_by_evaluation.
  - reflexivity.
  - reflexivity.
Defined.

(** X4: on a table whose references are distinct, seeding twice from the
    same query gives the store that seeding once gives. *)
Theorem X4_seed_idempotent
    (params : QueryParams) (options : UseRouteQueryOptions)
    (route_query : LocationQuery) (σ : Store) (ref : Ref) :
  NoDup params.*2 →
  initParamsFromRoute params options route_query
    (initParamsFromRoute params options route_query σ) ref
  = initParamsFromRoute params options route_query σ ref.
Proof.
  intros Hnd. unfold initParamsFromRoute.
  apply (assigns_idemp options _ _ params σ
           (initParamsFromRoute_assigns options route_query)); [|done].
  intros key v. apply convertRouteValue_idemp.
Qed.

Lemma X4_witness :
  let route_query : LocationQuery :=
    {[ "q" := Multi [LString "vue"; LString "router"];
       "page" := Single (LString "12.50"); "active" := Single (LString "no") ]} in
  let σ' := initParamsFromRoute example_params default_options route_query
              example_store in
  initParamsFromRoute example_params default_options route_query σ' 1 = σ' 1.
Proof.
  intros route_query σ'.
  apply (X4_seed_idempotent example_params default_options route_query
           example_store 1).
  decide_by_evaluation.
Defined.

(** ** Further properties of [updateRouteQuery] and of the watcher *)

(** Every key falls under [updateRouteQuery_frame] or under
    [updateRouteQuery_lookup]. *)
Lemma updateRouteQuery_cases
    (params : QueryParams) (options : UseRouteQueryOptions)
    (route_query : LocationQuery) (σ : Store) (key : string) :
  NoDup params.*1 →
  (key ∈ excludeKeys options ∨ key ∉ params.*1) ∨
  (∃ ref, (key, ref) ∈ params ∧ (key ∉ excludeKeys options) ∧
          updateRouteQuery params options route_query σ !! key
          = committed options (σ ref)).
Proof.
  intros Hnd.
  destruct (decide (key ∈ excludeKeys options)) as [Hex|Hex]; [by left; left|].
  destruct (decide (key ∈ params.*1)) as [Hin|Hnin]; [|by left; right].
  right. apply list_elem_of_fmap in Hin as [[k ref] [-> Hin]]. cbn in *.
  exists ref. split; [done|]. split; [done|].
  by apply updateRouteQuery_lookup.
Qed.

(** The submitted query depends on the store only through the values that
    the watcher tracks. *)
Lemma updateRouteQuery_watch_source
    (params : QueryParams) (options : UseRouteQueryOptions)
    (route_query : LocationQuery) (σ σ' : Store) :
  watch_source params options σ = watch_source params options σ' →
  updateRouteQuery params options route_query σ
  = updateRouteQuery params options route_query σ'.
Proof.
  unfold watch_source, updateRouteQuery. revert route_query.
  induction params as [|[k r] params IH]; intros route_query Hsource; [done|].
  cbn [foldl]. unfold updateRouteQuery_body at 2 4.
  destruct (decide (k ∈ excludeKeys options)) as [Hex|Hex].
  - rewrite !filter_cons_False in Hsource by (cbn; tauto).
    rewrite !bool_decide_true by done. by apply IH.
  - rewrite !filter_cons_True in Hsource by done.
    rewrite !fmap_cons in Hsource. injection Hsource as Hr Hsource. cbn in Hr.
    rewrite !bool_decide_false by done. rewrite Hr. by apply IH.
Qed.

(** The tracked values do not involve a reference that only excluded keys
    hold. *)
Lemma watch_source_insert_excluded
    (params : QueryParams) (options : UseRouteQueryOptions)
    (σ : Store) (ref : Ref) (v : QueryValue) :
  (∀ k, (k, ref) ∈ params → k ∈ excludeKeys options) →
  watch_source params options (<[ref := v]> σ) = watch_source params options σ.
Proof.
  unfold watch_source.
  induction params as [|[k r] params IH]; intros Honly; [done|].
  assert (∀ k', (k', ref) ∈ params → k' ∈ excludeKeys options) as Honly'.
  { intros k' Hk'. apply Honly. by apply list_elem_of_further. }
  destruct (decide (k ∈ excludeKeys options)) as [Hex|Hex].
  - rewrite !filter_cons_False by (cbn; tauto). by apply IH.
  - rewrite !filter_cons_True by done. rewrite !fmap_cons, IH by done.
    f_equal. cbn. apply fn_lookup_insert_ne. intros ->.
    apply Hex, Honly, list_elem_of_here.
Qed.

(** X5: committing onto the query that a commit has produced changes
    nothing: [updateRouteQuery] is idempotent. *)
Theorem X5_commit_idempotent
    (params : QueryParams) (options : UseRouteQueryOptions)
    (route_query : LocationQuery) (σ : Store) :
  NoDup params.*1 →
  updateRouteQuery params options
    (updateRouteQuery params options route_query σ) σ
  = updateRouteQuery params options route_query σ.
Proof.
  intros Hnd. apply map_eq. intros key.
  destruct (updateRouteQuery_cases params options route_query σ key Hnd)
    as [Hframe | (ref & Hin & Hex & Hkey)].
  - by rewrite (updateRouteQuery_frame options σ params _ key).
  - rewrite Hkey. by apply updateRouteQuery_lookup.
Qed.

Lemma X5_witness :
  let submitted :=
    updateRouteQuery example_params keep_options example_query example_store in
  updateRouteQuery example_params keep_options submitted example_store = submitted.
Proof.
  intros submitted.
  apply (X5_commit_idempotent example_params keep_options example_query
           example_store).
  decide_by_evaluation.
Defined.





(** X8: two stores with the same tracked values (the result of the getter
    given to [watch]) give the same submitted query, so a change of the
    store that would change the submitted query changes the tracked
    values. *)
Theorem X8_watcher_tracks_what_commit_reads
    (params : QueryParams) (options : UseRouteQueryOptions)
    (route_query : LocationQuery) (σ σ' : Store) :
  watch_source params options σ = watch_source params options σ' →
  updateRouteQuery params options route_query σ
  = updateRouteQuery params options route_query σ'.
Proof. apply updateRouteQuery_watch_source. Qed.

Lemma X8_witness :
  let σ' : Store := <[3 := VNum (of_Z 7)]> (<[9 := VNull]> example_store) in
  watch_source example_params keep_options example_store
  = watch_source example_params keep_options σ' ∧
  updateRouteQuery example_params keep_options example_query example_store
  = updateRouteQuery example_params keep_options example_query σ'.
Proof.
  intros σ'.
  assert (watch_source example_params keep_options example_store
          = watch_source example_params keep_options σ') as Hsource
    by (by vm_compute).
  split; [exact Hsource|].
  apply (X8_watcher_tracks_what_commit_reads example_params keep_options
           example_query example_store σ' Hsource).
Defined.

(** X9: assigning to a reference that only excluded keys hold (or no key
    at all) changes neither the values the watcher tracks nor the query that
    a commit submits. *)
Theorem X9_excluded_reference_not_watched
    (params : QueryParams) (options : UseRouteQueryOptions)
    (route_query : LocationQuery) (σ : Store) (ref : Ref) (v : QueryValue) :
  (∀ k, (k, ref) ∈ params → k ∈ excludeKeys options) →
  watch_source params options (<[ref := v]> σ) = watch_source params options σ ∧
  updateRouteQuery params options route_query (<[ref := v]> σ)
  = updateRouteQuery params options route_query σ.
Proof.
  intros Honly.
  pose proof (watch_source_insert_excluded params options σ ref v Honly) as Hsource.
  split; [done|]. by apply updateRouteQuery_watch_source.
Qed.

Lemma X9_witness :
  watch_source example_params keep_options (<[3 := VStr "final"]> example_store)
  = [VStr ""; VNum (of_Z 1); VBool true] ∧
  updateRouteQuery example_params keep_options example_query
    (<[3 := VStr "final"]> example_store)
  = updateRouteQuery example_params keep_options example_query example_store.
Proof.
  assert (∀ k, (k, 3) ∈ example_params → k ∈ excludeKeys keep_options) as Honly.
  { intros k Hk.
    repeat (apply elem_of_cons in Hk as [Heq|Hk]; [try discriminate Heq|]).
    - injection Heq as ->. decide_by_evaluation.
    - by apply elem_of_nil in Hk. }
  destruct (X9_excluded_reference_not_watched example_params keep_options
              example_query example_store 3 (VStr "final") Honly)
    as [Hsource Hcommit].
  split; [|exact Hcommit]. rewrite Hsource. by vm_compute.
Defined.

(** ** Further properties of [resetParams] *)

(** X10: [resetParams] skips a key listed in [excludeKeys], also when
    [resetValues] has an entry for it: it behaves as on the table without
    that key, and a reference that only excluded keys hold keeps its
    value. *)
Theorem X10_reset_skips_excluded_key
    (params : QueryParams) (options : UseRouteQueryOptions)
    (resetValues : option (gmap string QueryValue)) (key : string) :
  key ∈ excludeKeys options →
  (∀ σ : Store,
     resetParams params options resetValues σ
     = resetParams (filter (λ p, p.1 ≠ key) params) options resetValues σ) ∧
  (∀ (σ : Store) (ref : Ref),
     (key, ref) ∈ params →
     (∀ k, (k, ref) ∈ params → k ∈ excludeKeys options) →
     resetParams params options resetValues σ ref = σ ref).
Proof.
  intros Hex. split.
  - intros σ. unfold resetParams.
    by apply (assigns_filter options _ _ params σ key
                (resetParams_assigns options resetValues)).
  - intros σ ref _ Honly. unfold resetParams.
    by apply (assigns_frame options _ _ params σ ref
                (resetParams_assigns options resetValues)).
Qed.

Lemma X10_witness :
  let resetValues : option (gmap string QueryValue) :=
    Some {[ "internalFlag" := VStr "published" ]} in
  resetParams example_params keep_options resetValues example_store 3
  = VStr "draft".
Proof.
  intros resetValues.
  assert ("internalFlag" ∈ excludeKeys keep_options) as Hex
    by decide_by_evaluation.
  apply (proj2 (X10_reset_skips_excluded_key example_params keep_options
                  resetValues "internalFlag" Hex) example_store 3).
  - decide_by_evaluation.
  - intros k Hk.
    repeat (apply elem_of_cons in Hk as [Heq|Hk]; [try discriminate Heq|]).
    + injection Heq as ->. exact Hex.
    + by apply elem_of_nil in Hk.
Defined.

(** The value that [resetParams] assigns is a fixed point of the
    assignment. *)
Lemma reset_value_idemp (resetValues : option (gmap string QueryValue))
    (key : string) (v : QueryValue) :
  reset_value resetValues key (reset_value resetValues key v)
  = reset_value resetValues key v.
Proof.
  unfold reset_value, type_default.
  destruct (resetValues ≫= _); [done|]. by destruct v.
Qed.

(** X11: on a table whose references are distinct, resetting twice with the
    same [resetValues] gives the store that resetting once gives. *)
Theorem X11_reset_idempotent
    (params : QueryParams) (options : UseRouteQueryOptions)
    (resetValues : option (gmap string QueryValue)) (σ : Store) (ref : Ref) :
  NoDup params.*2 →
  resetParams params options resetValues
    (resetParams params options resetValues σ) ref
  = resetParams params options resetValues σ ref.
Proof.
  intros Hnd. unfold resetParams.
  apply (assigns_idemp options _ _ params σ
           (resetParams_assigns options resetValues)); [|done].
  intros key v. apply reset_value_idemp.
Qed.

Lemma X11_witness :
  let resetValues : option (gmap string QueryValue) :=
    Some {[ "q" := VNull ]} in
  let σ' := resetParams example_params default_options resetValues example_store in
  resetParams example_params default_options resetValues σ' 0 = σ' 0 ∧
  resetParams example_params default_options resetValues σ' 1 = σ' 1.
Proof.
  intros resetValues σ'.
  assert (NoDup example_params.*2) as Hnd by decide_by_evaluation.
  split.
  - apply (X11_reset_idempotent example_params default_options resetValues
             example_store 0 Hnd).
  - apply (X11_reset_idempotent example_params default_options resetValues
             example_store 1 Hnd).
Defined.

(** ** How the operations compose *)





(** X14: seeding a parameter that holds a string, [undefined] or [null] from
    a query string that is not empty and committing onto the same query
    submits that string as a plain entry: a plain entry is kept, and an array
    entry is replaced by its first element. *)
Theorem X14_seed_then_commit_collapses_array
    (params : QueryParams) (options : UseRouteQueryOptions)
    (route_query : LocationQuery) (σ : Store) (key : string) (ref : Ref)
    (routeValue : RouteValue) (s : string) :
  NoDup params.*1 →
  NoDup params.*2 →
  (key, ref) ∈ params →
  key ∉ excludeKeys options →
  typeof (σ ref) ≠ TNumber →
  typeof (σ ref) ≠ TBoolean →
  route_query !! key = Some routeValue →
  routeValue = Single (LString s) ∨ (∃ vs, routeValue = Multi (LString s :: vs)) →
  s ≠ "" →
  updateRouteQuery params options route_query
    (initParamsFromRoute params options route_query σ) !! key
  = Some (Single (LString s)).
Proof.
  intros Hnd1 Hnd2 Hin Hex Hnum Hbool Hentry Hstring Hs.
  rewrite (updateRouteQuery_lookup options _ params route_query key ref) by done.
  rewrite (initParamsFromRoute_string params options route_query σ key ref
             routeValue s) by done.
  assert (committed options (VStr s) = Some (Single (LString s))) as Hcommitted.
  { unfold committed. cbn [is_empty strict_eq_string].
    by rewrite bool_decide_false. }
  by destruct (typeof (σ ref)).
Qed.

Lemma X14_witness :
  let route_query : LocationQuery :=
    {[ "q" := Multi [LString "vue"; LString "router"] ]} in
  updateRouteQuery example_params default_options route_query
    (initParamsFromRoute example_params default_options route_query example_store)
    !! "q"
  = Some (Single (LString "vue")).
Proof.
  intros route_query.
  apply (X14_seed_then_commit_collapses_array example_params default_options
           route_query example_store "q" 0
           (Multi [LString "vue"; LString "router"]) "vue").
  - decide_by_evaluation.
  - decide_by_evaluation.
  - decide_by_evaluation.
  - decide_by_evaluation.
  - discriminate.
  - discriminate.
  - by vm_compute.
  - right. by exists [LString "router"].
  - discriminate.
Defined.

(** X15: seeding a boolean parameter from a query string and committing
    submits ["true"] when the string is ["true"] and ["false"] for any other
    string, under either policy. *)
Theorem X15_seed_then_commit_normalises_boolean
    (params : QueryParams) (options : UseRouteQueryOptions)
    (route_query prior : LocationQuery) (σ : Store) (key : string) (ref : Ref)
    (routeValue : RouteValue) (s : string) (b : bool) :
  NoDup params.*1 →
  NoDup params.*2 →
  (key, ref) ∈ params →
  key ∉ excludeKeys options →
  σ ref = VBool b →
  route_query !! key = Some routeValue →
  routeValue = Single (LString s) ∨ (∃ vs, routeValue = Multi (LString s :: vs)) →
  updateRouteQuery params options prior
    (initParamsFromRoute params options route_query σ) !! key
  = Some (Single (LString (if bool_decide (s = "true") then "true" else "false"))).
Proof.
  intros Hnd1 Hnd2 Hin Hex Hσ Hentry Hstring.
  rewrite (updateRouteQuery_lookup options _ params prior key ref) by done.
  rewrite (initParamsFromRoute_string params options route_query σ key ref
             routeValue s) by done.
  rewrite Hσ. cbn [typeof]. by destruct (bool_decide (s = "true")).
Qed.

Lemma X15_witness :
  let route_query : LocationQuery := {[ "active" := Single (LString "yes") ]} in
  updateRouteQuery example_params default_options route_query
    (initParamsFromRoute example_params default_options route_query example_store)
    !! "active"
  = Some (Single (LString "false")).
Proof.
  intros route_query.
  apply (X15_seed_then_commit_normalises_boolean example_params default_options
           route_query route_query example_store "active" 2
           (Single (LString "yes")) "yes" true).
  - decide_by_evaluation.
  - decide_by_evaluation.
  - decide_by_evaluation.
  - decide_by_evaluation.
  - reflexivity.
  - by vm_compute.
  - by left.
Defined.

(** ** Edge cases of seeding *)

(** X16: an array entry whose first element is [null] (the URL [?page&page=5])
    seeds the number 0 into a parameter that holds a number, since
    [Number(null)] is 0, and [false] into one that holds a boolean; an empty
    array leaves a number as it is and seeds [false] into a boolean. *)
Theorem X16_seed_from_array_without_string
    (params : QueryParams) (options : UseRouteQueryOptions)
    (route_query : LocationQuery) (σ : Store) (key : string) (ref : Ref)
    (vs : list LocationQueryValue) :
  NoDup params.*2 →
  (key, ref) ∈ params →
  key ∉ excludeKeys options →
  route_query !! key = Some (Multi vs) →
  vs = [] ∨ (∃ vs', vs = LNull :: vs') →
  let σ' := initParamsFromRoute params options route_query σ in
  (∀ n, σ ref = VNum n →
        σ' ref = if bool_decide (vs = []) then VNum n else VNum (S754_zero false)) ∧
  (∀ b, σ ref = VBool b → σ' ref = VBool false).
Proof.
  intros Hnd Hin Hex Hentry Hvs σ'. unfold σ'.
  rewrite (initParamsFromRoute_lookup options params route_query σ key ref) by done.
  rewrite Hentry. split.
  - intros n ->. by destruct Hvs as [-> | [vs' ->]].
  - intros b ->. by destruct Hvs as [-> | [vs' ->]].
Qed.

Lemma X16_witness :
  let route_query : LocationQuery :=
    {[ "page" := Multi [LNull; LString "5"]; "active" := Multi [] ]} in
  let σ' := initParamsFromRoute example_params default_options route_query
              example_store in
  σ' 1 = VNum (S754_zero false) ∧ σ' 2 = VBool false.
Proof.
  intros route_query σ'.
  assert (NoDup example_params.*2) as Hnd by decide_by_evaluation.
  split.
  - apply (proj1 (X16_seed_from_array_without_string example_params
                    default_options route_query example_store "page" 1
                    [LNull; LString "5"] Hnd ltac:(decide_by_evaluation)
                    ltac:(decide_by_evaluation) ltac:(by vm_compute)
                    ltac:(right; by exists [LString "5"])) (of_Z 1)).
    reflexivity.
  - apply (proj2 (X16_seed_from_array_without_string example_params
                    default_options route_query example_store "active" 2
                    [] Hnd ltac:(decide_by_evaluation)
                    ltac:(decide_by_evaluation) ltac:(by vm_compute)
                    ltac:(by left)) true).
    reflexivity.
Defined.

(** [Number] of a string of white space is 0. *)
Lemma drop_white_space_all (l : list ascii) :
  Forall (λ c, is_white_space c = true) l → drop_white_space l = [].
Proof.
  induction 1 as [|c l Hc _ IH]; [done|]. cbn. by rewrite Hc.
Qed.

Lemma StringToNumber_white_space (s : string) :
  Forall (λ c, is_white_space c = true) (String.list_ascii_of_string s) →
  StringToNumber s = S754_zero false.
Proof.
  intros Hws. unfold StringToNumber, trim.
  by rewrite (drop_white_space_all _ Hws).
Qed.

(** X17: a query string made only of white space (tab, line feed, vertical
    tab, form feed, carriage return, space, no-break space) seeds the number
    0 into a parameter that holds a number: [Number] gives 0 for it, not
    [NaN], so the prior value is not kept. *)
Theorem X17_white_space_seeds_zero
    (params : QueryParams) (options : UseRouteQueryOptions)
    (route_query : LocationQuery) (σ : Store) (key : string) (ref : Ref)
    (s : string) (n : number) :
  NoDup params.*2 →
  (key, ref) ∈ params →
  key ∉ excludeKeys options →
  σ ref = VNum n →
  route_query !! key = Some (Single (LString s)) →
  Forall (λ c, is_white_space c = true) (String.list_ascii_of_string s) →
  initParamsFromRoute params options route_query σ ref = VNum (S754_zero false).
Proof.
  intros Hnd Hin Hex Hσ Hentry Hws.
  rewrite (initParamsFromRoute_string params options route_query σ key ref
             (Single (LString s)) s) by (done || by left).
  rewrite Hσ. cbn [typeof]. by rewrite (StringToNumber_white_space s Hws).
Qed.

Lemma X17_witness :
  let route_query : LocationQuery := {[ "page" := Single (LString "   ") ]} in
  initParamsFromRoute example_params default_options route_query example_store 1
  = VNum (S754_zero false).
Proof.
  intros route_query.
  apply (X17_white_space_seeds_zero example_params default_options route_query
           example_store "page" 1 "   " (of_Z 1)).
  - decide_by_evaluation.
  - decide_by_evaluation.
  - decide_by_evaluation.
  - reflexivity.
  - by vm_compute.
  - repeat constructor.
Defined.
